(** * auth-cookie-storage: the token cookie store of [src/lib/cookie_storage.ts]

    A shallow embedding of the class [AuthCookieStorage] and of the part of
    its host (browser window, clock, cookie jar, console) that its methods
    touch, followed by the properties of its five methods.

    Conventions.
    - A JavaScript value that may be [undefined] is an [option]; [None] is
      [undefined].
    - A [number] is an integer [Z]: the claims read here ([exp], [iat],
      [auth_time]) are whole seconds, and a time value is whole milliseconds.
    - A method is a computation over the instance and its host that either
      returns or throws, and that may change both. *)

From stdpp Require Import base strings gmap list.
From Stdlib Require Import ZArith Lia Ascii.

Local Open Scope string_scope.
Local Open Scope Z_scope.

(** ** JavaScript truthiness *)

Class Truthy (A : Type) := truthy : A → bool.

#[global] Instance string_truthy : Truthy string :=
  λ s, match s with EmptyString => false | String _ _ => true end.
#[global] Instance bool_truthy : Truthy bool := λ b, b.
#[global] Instance number_truthy : Truthy Z := λ n, negb (n =? 0).
#[global] Instance undefined_truthy `{Truthy A} : Truthy (option A) :=
  λ o, match o with None => false | Some a => truthy a end.

(** [Boolean(v)] *)
Definition Boolean `{Truthy A} (v : A) : bool := truthy v.

(** [v || ""] on a string that may be undefined *)
Definition or_empty (v : option string) : string :=
  match v with
  | Some s => if truthy s then s else ""
  | None => ""
  end.

(** ** Dates (the built-in [Date] and the two date-fns functions used) *)

(** A [Date] holds a time value in milliseconds since the epoch, or NaN
    (an invalid date). *)
Inductive Date := ValidDate (time : Z) | InvalidDate.

Definition getTime (d : Date) : option Z :=
  match d with ValidDate t => Some t | InvalidDate => None end.

(** The largest time value a [Date] can hold (ECMAScript TimeClip). *)
Definition MAX_TIME : Z := 8640000000000000.

(** [a * b] where [a] may be undefined; [None] is NaN. *)
Definition times (a : option Z) (b : Z) : option Z :=
  match a with Some x => Some (x * b) | None => None end.

(** [new Date(value)]: NaN and values out of range give an invalid date. *)
Definition Date_of_value (value : option Z) : Date :=
  match value with
  | Some v => if bool_decide (Z.abs v ≤ MAX_TIME) then ValidDate v
              else InvalidDate
  | None => InvalidDate
  end.

(** date-fns [isAfter(date, dateToCompare)]:
    [date.getTime() > dateToCompare.getTime()], false when either is NaN. *)
Definition isAfter (date dateToCompare : Date) : bool :=
  match getTime date, getTime dateToCompare with
  | Some a, Some b => bool_decide (b < a)
  | _, _ => false
  end.

(** The [Duration] argument of date-fns [add]; only [years] is ever given. *)
Record Duration := { years : Z }.

(** ** The [cookie] package *)

(** The options this program passes to [cookie.serialize]. *)
Record CookieSerializeOptions := {
  expires : option Date;
  maxAge : option Z;
  path : option string;
}.

(** [cookie.serialize(name, value, options)] returns the text of one cookie:
    [name=value] followed by one attribute per option that is set. The text
    is kept by its three components, which determine it; the call is taken
    as returning for every name and value. *)
Record SetCookie := {
  cookie_name : string;
  cookie_value : string;
  cookie_attributes : CookieSerializeOptions;
}.

(** Whether a serialized cookie carries an expiration date strictly before
    the time [t]. *)
Definition expires_before (t : Z) (c : SetCookie) : bool :=
  match expires (cookie_attributes c) with
  | Some (ValidDate e) => bool_decide (e < t)
  | _ => false
  end.

Definition serialize (name val : string) (options : CookieSerializeOptions)
  : SetCookie :=
  {| cookie_name := name; cookie_value := val; cookie_attributes := options |}.

(** The cookies a jar that was empty holds after the given assignments to
    [document.cookie]: under each name, the value assigned last. *)
Definition written_cookies (assigned : list SetCookie) : gmap string string :=
  foldl (λ jar c, <[cookie_name c := cookie_value c]> jar) ∅ assigned.

(** ** Interfaces of the source *)

Module AuthCookieStorageProps.
Record t := mk {
  prefix : string;
  cookie_string : option string;
}.
End AuthCookieStorageProps.

Module SetTokenProps.
Record t := mk {
  id_token : string;
  access_token : string;
  refresh_token : string;
  persist : option bool;
}.
End SetTokenProps.

Definition DAY : Z := 60 * 60 * 24.

(** [Partial<CognitoDefaultProps>], the bound of the payload type [T]:
    every field may be absent. *)
Record CognitoDefaultProps := {
  sub : option string;
  email_verified : option bool;
  iss : option string;
  aud : option string;
  event_id : option string;
  token_use : option string;
  auth_time : option Z;
  exp : option Z;
  iat : option Z;
  email : option string;
  origin_jti : option string;
  cognito_username : option string;
}.

(** [{} as T] *)
Definition empty_payload : CognitoDefaultProps :=
  {| sub := None; email_verified := None; iss := None; aud := None;
     event_id := None; token_use := None; auth_time := None; exp := None;
     iat := None; email := None; origin_jti := None;
     cognito_username := None |}.

(** ** The instance and its host *)

Record AuthCookieStorage := {
  prefix : string;
  id_token : option string;
  access_token : option string;
  refresh_token : option string;
  persist : option bool;
  user : option CognitoDefaultProps;
  cookie_string : option string;
}.

(** What the methods see of the environment: whether [window] is defined,
    the clock, the cookies assigned to [document.cookie] (oldest first) and
    the lines sent to [console.error]. *)
Record Host := {
  window : bool;
  now : Z;
  document_cookie : list SetCookie;
  console : list string;
}.

Inductive JsError :=
  | Error (message : string)
  | TypeError
  | InvalidTokenError.

Inductive Completion (A : Type) :=
  | Return (a : A)
  | Throw (e : JsError).
Arguments Return {A} a.
Arguments Throw {A} e.

(** The value [this] as a return value: the caller gets the instance of the
    final state back. *)
Inductive Self := self.

Definition Machine : Type := AuthCookieStorage * Host.

Definition M (A : Type) : Type := Machine → Completion A * Machine.

#[global] Instance M_ret : MRet M := λ A a st, (Return a, st).
#[global] Instance M_bind : MBind M := λ A B f m st,
  match m st with
  | (Return a, st') => f a st'
  | (Throw e, st') => (Throw e, st')
  end.

Definition throw {A} (e : JsError) : M A := λ st, (Throw e, st).

Definition try_catch {A} (body : M A) (handler : JsError → M A) : M A :=
  λ st,
    match body st with
    | (Return a, st') => (Return a, st')
    | (Throw e, st') => handler e st'
    end.

Definition get_this : M AuthCookieStorage := λ st, (Return st.1, st).

Definition update_this (f : AuthCookieStorage → AuthCookieStorage) : M unit :=
  λ st, (Return tt, (f st.1, st.2)).

(** [typeof window !== "undefined"] *)
Definition window_defined : M bool := λ st, (Return (window st.2), st).

(** [new Date()] *)
Definition new_Date : M Date := λ st, (Return (ValidDate (now st.2)), st).

(** [document.cookie = c] *)
Definition assign_document_cookie (c : SetCookie) : M unit :=
  λ st, (Return tt,
         (st.1, {| window := window st.2; now := now st.2;
                   document_cookie := document_cookie st.2 ++ [c];
                   console := console st.2 |})).

(** [console.error(line)] *)
Definition console_error (line : string) : M unit :=
  λ st, (Return tt,
         (st.1, {| window := window st.2; now := now st.2;
                   document_cookie := document_cookie st.2;
                   console := console st.2 ++ [line] |})).

(** [list.forEach(body)] *)
Fixpoint forEach {A} (l : list A) (body : A → M unit) : M unit :=
  match l with
  | [] => mret tt
  | x :: l' => body x;; forEach l' body
  end.

(** Field assignments [this.f = v]. *)
Definition with_id_token v (s : AuthCookieStorage) : AuthCookieStorage :=
  {| prefix := prefix s; id_token := v; access_token := access_token s;
     refresh_token := refresh_token s; persist := persist s; user := user s;
     cookie_string := cookie_string s |}.
Definition with_access_token v (s : AuthCookieStorage) : AuthCookieStorage :=
  {| prefix := prefix s; id_token := id_token s; access_token := v;
     refresh_token := refresh_token s; persist := persist s; user := user s;
     cookie_string := cookie_string s |}.
Definition with_refresh_token v (s : AuthCookieStorage) : AuthCookieStorage :=
  {| prefix := prefix s; id_token := id_token s;
     access_token := access_token s; refresh_token := v;
     persist := persist s; user := user s;
     cookie_string := cookie_string s |}.
Definition with_persist v (s : AuthCookieStorage) : AuthCookieStorage :=
  {| prefix := prefix s; id_token := id_token s;
     access_token := access_token s; refresh_token := refresh_token s;
     persist := v; user := user s; cookie_string := cookie_string s |}.
Definition with_user v (s : AuthCookieStorage) : AuthCookieStorage :=
  {| prefix := prefix s; id_token := id_token s;
     access_token := access_token s; refresh_token := refresh_token s;
     persist := persist s; user := v; cookie_string := cookie_string s |}.
Definition with_cookie_string v (s : AuthCookieStorage) : AuthCookieStorage :=
  {| prefix := prefix s; id_token := id_token s;
     access_token := access_token s; refresh_token := refresh_token s;
     persist := persist s; user := user s; cookie_string := v |}.
Definition with_prefix v (s : AuthCookieStorage) : AuthCookieStorage :=
  {| prefix := v; id_token := id_token s;
     access_token := access_token s; refresh_token := refresh_token s;
     persist := persist s; user := user s;
     cookie_string := cookie_string s |}.

(** ** The class *)

Section Methods.

(** The imported functions whose code is outside the repository. *)

(** [cookie.parse(str, {})]: the object of the cookies named in a cookie
    header string. *)
Variable parse : string → gmap string string.

(** [jwt<T>(token)] of jwt-decode: the payload of a token, [None] when it
    throws (the argument is not a string or is not a decodable token). *)
Variable jwt : option string → option CognitoDefaultProps.

(** date-fns [add(date, duration)]. *)
Variable add : Date → Duration → Date.

Definition clearTokens : M (option Self) :=
  client_side ← window_defined;
  if negb client_side then
    console_error "Trying to remove cookie in a server-side environment";;
    mret None
  else
    this ← get_this;
    let cookies_to_delete := [
      ("access_token", prefix this +:+ ":access_token");
      ("id_token", prefix this +:+ ":id_token");
      ("refresh_token", prefix this +:+ ":refresh_token");
      ("keep", prefix this +:+ ":keep")
    ] in
    forEach cookies_to_delete.*2 (λ cookie_name,
      date ← new_Date;
      let updated_cookie :=
        serialize cookie_name ""
          {| expires := Some date; maxAge := None; path := Some "/" |} in
      assign_document_cookie updated_cookie);;
    mret (Some self).

Definition getTokens (argument : option string) : M Self :=
  this ← get_this;
  let cookie_string' :=
    match argument with Some s => Some s | None => cookie_string this end in
  if negb (truthy cookie_string') && negb (truthy (cookie_string this)) then
    mret self
  else
    update_this (with_cookie_string cookie_string');;
    this ← get_this;
    let cookies := parse (or_empty (cookie_string this)) in
    let id_token' := cookies !! (prefix this +:+ ":id_token") in
    let refresh_token' := cookies !! (prefix this +:+ ":refresh_token") in
    let access_token' := cookies !! (prefix this +:+ ":access_token") in
    let keep := cookies !! (prefix this +:+ ":keep") in
    update_this (with_access_token access_token');;
    update_this (with_id_token id_token');;
    update_this (with_refresh_token refresh_token');;
    update_this (with_persist (Some (Boolean keep)));;
    mret self.

Definition setTokens (props : SetTokenProps.t) : M Self :=
  let access_token' := SetTokenProps.access_token props in
  let id_token' := SetTokenProps.id_token props in
  let refresh_token' := SetTokenProps.refresh_token props in
  let persist' := SetTokenProps.persist props in
  client_side ← window_defined;
  if negb client_side then
    throw (Error "Trying to set cookie in a server-side environment")
  else
    expires' ← (if truthy persist'
                then date ← new_Date; mret (Some (add date {| years := 1 |}))
                else mret None);
    let cookies_options :=
      {| expires := expires';
         maxAge := if truthy persist' then Some (365 * DAY) else None;
         path := None |} in
    this ← get_this;
    let cookies := [
      ("id_token",
       serialize (prefix this +:+ ":id_token") id_token' cookies_options);
      ("access_token",
       serialize (prefix this +:+ ":access_token") access_token'
         cookies_options);
      ("refresh_token",
       serialize (prefix this +:+ ":refresh_token") refresh_token'
         cookies_options)
    ] in
    let cookies :=
      if truthy persist'
      then (cookies ++
            [("keep",
              serialize (prefix this +:+ ":keep") "true" cookies_options)])%list
      else cookies in
    update_this (with_access_token (Some access_token'));;
    update_this (with_id_token (Some id_token'));;
    update_this (with_refresh_token (Some refresh_token'));;
    update_this (with_persist (Some (Boolean persist')));;
    forEach cookies.*2 (λ polytag_cookie,
      assign_document_cookie polytag_cookie);;
    mret self.

(** The call [jwt<T>(token)], which throws when the decoder fails. *)
Definition call_jwt (token : option string) : M CognitoDefaultProps :=
  match jwt token with
  | Some payload => mret payload
  | None => throw InvalidTokenError
  end.

Definition decode : M Self :=
  try_catch
    (this ← get_this;
     payload ← call_jwt (id_token this);
     update_this (with_user (Some payload)))
    (λ error, update_this (with_user (Some empty_payload)));;
  mret self.

Definition isExpired : M bool :=
  decode;;
  this ← get_this;
  match user this with
  | None => throw TypeError
  | Some payload =>
      let exp' := exp payload in
      if negb (truthy exp') then mret false
      else
        date ← new_Date;
        let expired := isAfter date (Date_of_value (times exp' 1000)) in
        mret expired
  end.

(** The instance before the constructor body runs: no field is assigned
    yet ([prefix], a string, gets its value in the first statement). *)
Definition blank : AuthCookieStorage :=
  {| prefix := ""; id_token := None; access_token := None;
     refresh_token := None; persist := None; user := None;
     cookie_string := None |}.

Definition constructor (props : AuthCookieStorageProps.t) : M unit :=
  update_this (with_prefix (AuthCookieStorageProps.prefix props));;
  if negb (truthy (AuthCookieStorageProps.cookie_string props)) then mret tt
  else
    update_this
      (with_cookie_string (AuthCookieStorageProps.cookie_string props));;
    getTokens (AuthCookieStorageProps.cookie_string props);;
    mret tt.

(** [new AuthCookieStorage(props)] in a given host. *)
Definition new_AuthCookieStorage (props : AuthCookieStorageProps.t)
    (host : Host) : Completion unit * Machine :=
  constructor props (blank, host).

End Methods.

(** ** Stand-ins for the imported functions, to run the methods on data

    None of the properties below is about these: they instantiate the
    parameters of the methods where a property is run on a concrete
    instance. *)

(** The pairs of a cookie header, split at each semicolon. *)
Fixpoint header_pairs (str current : string) : list string :=
  match str with
  | EmptyString => [current]
  | String c rest =>
      if Ascii.eqb c (";" : Ascii.ascii) then current :: header_pairs rest ""
      else header_pairs rest (current +:+ String c "")
  end.

Fixpoint trim_start (s : string) : string :=
  match s with
  | String c rest =>
      if Ascii.eqb c (" " : Ascii.ascii) then trim_start rest else s
  | EmptyString => s
  end.

(** The text before the first [=] and the text after it, if there is one. *)
Fixpoint cut_at_eq (pair : string) : string * option string :=
  match pair with
  | EmptyString => ("", None)
  | String c rest =>
      if Ascii.eqb c ("=" : Ascii.ascii) then ("", Some rest)
      else let '(key, val) := cut_at_eq rest in (String c key, val)
  end.

(** A reader of [name=value; name=value] headers: the first occurrence of a
    name wins, a pair without [=] is skipped. Values are taken as they are. *)
Definition parse_plain (str : string) : gmap string string :=
  foldl (λ obj pair,
           match cut_at_eq (trim_start pair) with
           | (key, Some val) =>
               match obj !! key with
               | None => <[key := val]> obj
               | Some _ => obj
               end
           | (_, None) => obj
           end)
        ∅ (header_pairs str "").

(** A payload whose only claim is [exp]. *)
Definition payload_of_exp (e : Z) : CognitoDefaultProps :=
  {| sub := None; email_verified := None; iss := None; aud := None;
     event_id := None; token_use := None; auth_time := None;
     exp := Some e; iat := None; email := None;
     origin_jti := None; cognito_username := None |}.

(** A decoder that knows one token, ["T"], whose payload is [{exp: e}], and
    throws on anything else. *)
Definition jwt_T (e : Z) (token : option string)
  : option CognitoDefaultProps :=
  match token with
  | Some "T" => Some (payload_of_exp e)
  | _ => None
  end.

(** Years of 365 days. *)
Definition add_365 (date : Date) (duration : Duration) : Date :=
  match date with
  | ValidDate t => Date_of_value (Some (t + years duration * 365 * DAY * 1000))
  | InvalidDate => InvalidDate
  end.

Definition browser (clock : Z) : Host :=
  {| window := true; now := clock; document_cookie := []; console := [] |}.

Definition server (clock : Z) : Host :=
  {| window := false; now := clock; document_cookie := []; console := [] |}.

(** The instance [new AuthCookieStorage({ prefix: "app" })]. *)
Definition app : AuthCookieStorage := with_prefix "app" blank.

(** The same instance once it holds the identity token ["T"]. *)
Definition app_T : AuthCookieStorage := with_id_token (Some "T") app.

Definition tokens_T (persist : option bool) : SetTokenProps.t :=
  SetTokenProps.mk "T" "a" "r" persist.

(** A second instance, [new AuthCookieStorage({ prefix: "web" })]. *)
Definition web : AuthCookieStorage := with_prefix "web" blank.

(** The instance [app] once it caches a cookie string that holds the token
    ["T"] and a [keep] cookie of value ["false"]. *)
Definition app_cached : AuthCookieStorage :=
  with_cookie_string (Some "app:id_token=T; app:keep=false") app.

(** The cookie string of a browser that holds the four cookies of [app]. *)
Definition header_app_keep : string :=
  "app:id_token=T; app:access_token=a; app:refresh_token=r; app:keep=true".

Example parse_plain_example :
  parse_plain "app:id_token=T; app:keep=true" !! "app:keep" = Some "true".
Proof. vm_compute. reflexivity. Qed.

Example parse_plain_eq :
  parse_plain "a=1; b=2" = <[ "b" := "2" ]> (<[ "a" := "1" ]> ∅).
Proof. vm_compute. reflexivity. Qed.

(** * Properties *)

(** ** Running computations *)

Lemma run_bind {A B} (m : M A) (k : A → M B) st a st' :
  m st = (Return a, st') → (m ≫= k) st = k a st'.
Proof. intros Hm. unfold mbind, M_bind. by rewrite Hm. Qed.

Lemma run_bind_throw {A B} (m : M A) (k : A → M B) st e st' :
  m st = (Throw e, st') → (m ≫= k) st = (Throw e, st').
Proof. intros Hm. unfold mbind, M_bind. by rewrite Hm. Qed.

(** One statement of a method body whose effect is known by computation. *)
Ltac run_step := erewrite run_bind by reflexivity; cbn [fst snd].

(** The test on [window] that opens [clearTokens] and [setTokens], decided
    by the hypothesis [H] on the host. *)
Ltac run_window_test H outside :=
  run_step;
  match goal with
  | |- context [negb (window ?h)] =>
      replace (negb (window h)) with outside by (by rewrite H)
  end.

(** A loop whose body only assigns [document.cookie] appends one cookie per
    element, in order, and touches nothing else. *)
Lemma forEach_assign {A} (f : A → SetCookie) (l : list A) s h :
  forEach l (λ x, assign_document_cookie (f x)) (s, h)
  = (Return tt,
     (s, {| window := window h; now := now h;
            document_cookie := document_cookie h ++ (f <$> l);
            console := console h |})).
Proof.
  revert h. induction l as [|x l IH]; intros h; simpl.
  - rewrite app_nil_r. by destruct h.
  - erewrite run_bind by reflexivity. rewrite IH. simpl.
    by rewrite <- app_assoc.
Qed.

(** The same when the body first reads the clock. *)
Lemma forEach_dated_assign {A} (f : Date → A → SetCookie) (l : list A) s h :
  forEach l (λ x, date ← new_Date; assign_document_cookie (f date x)) (s, h)
  = (Return tt,
     (s, {| window := window h; now := now h;
            document_cookie :=
              document_cookie h ++ (f (ValidDate (now h)) <$> l);
            console := console h |})).
Proof.
  revert h. induction l as [|x l IH]; intros h; simpl.
  - rewrite app_nil_r. by destruct h.
  - erewrite run_bind by reflexivity. rewrite IH. simpl.
    by rewrite <- app_assoc.
Qed.

(** Cookie names under one prefix differ when their suffixes do. *)
Lemma prefixed_inj (p a b : string) : p +:+ a = p +:+ b → a = b.
Proof.
  induction p as [|c p IH]; cbn [String.append]; [done|].
  intros Heq. apply IH. by injection Heq.
Qed.

Lemma prefixed_ne (p a b : string) : a ≠ b → p +:+ a ≠ p +:+ b.
Proof. intros Hne Heq. by apply Hne, (prefixed_inj p). Qed.

(** ** [decode] and [isExpired] *)

(** What [decode] computes: the decoder's payload, or the empty mapping
    when the decoder throws. *)
Lemma decode_run jwt s h :
  decode jwt (s, h)
  = (Return self,
     (with_user (Some (default empty_payload (jwt (id_token s)))) s, h)).
Proof.
  unfold decode, try_catch, call_jwt, mbind, M_bind, get_this; simpl.
  destruct (jwt (id_token s)) as [payload|]; reflexivity.
Qed.

(** C4: [decode] never throws, whatever [id_token] holds (undefined,
    malformed, not a token): it returns the instance; when the decoder
    fails, [user] is the empty mapping; when the decoder succeeds, [user] is
    the decoded payload; no other field and nothing of the host changes. *)
Theorem decode_absorbs_decoder_failure jwt s h :
  ∃ claims,
    decode jwt (s, h) = (Return self, (with_user (Some claims) s, h))
    ∧ (jwt (id_token s) = None → claims = empty_payload)
    ∧ (∀ payload, jwt (id_token s) = Some payload → claims = payload).
Proof.
  exists (default empty_payload (jwt (id_token s))).
  split; [apply decode_run|].
  split; [by intros ->|]. by intros payload ->.
Qed.

Lemma decode_absorbs_decoder_failure_witness :
  user (decode (jwt_T 1000) (app, server 0)).2.1 = Some empty_payload
  ∧ user (decode (jwt_T 1000) (app_T, server 0)).2.1
    = Some (payload_of_exp 1000).
Proof.
  split.
  - destruct (decode_absorbs_decoder_failure (jwt_T 1000) app (server 0))
      as (claims & -> & Hfailure & _).
    cbn [fst snd user with_user]. f_equal. by apply Hfailure.
  - destruct (decode_absorbs_decoder_failure (jwt_T 1000) app_T (server 0))
      as (claims & -> & _ & Hsuccess).
    cbn [fst snd user with_user]. f_equal. by apply Hsuccess.
Defined.

(** What [isExpired] computes, after its call of [decode]. *)
Lemma isExpired_run jwt s h :
  let payload := default empty_payload (jwt (id_token s)) in
  isExpired jwt (s, h)
  = (Return
       (match exp payload with
        | None => false
        | Some e =>
            if e =? 0 then false
            else isAfter (ValidDate (now h)) (Date_of_value (Some (e * 1000)))
        end),
     (decode jwt (s, h)).2).
Proof.
  intros payload. unfold isExpired.
  erewrite run_bind by apply decode_run.
  rewrite decode_run. fold payload.
  unfold mbind, M_bind, get_this; simpl.
  destruct (exp payload) as [e|]; simpl; [|done].
  cbv [truthy undefined_truthy number_truthy].
  by destruct (e =? 0).
Qed.

Lemma isAfter_in_range (t v : Z) :
  Z.abs v ≤ MAX_TIME →
  isAfter (ValidDate t) (Date_of_value (Some v)) = bool_decide (v < t).
Proof.
  intros Hrange. unfold Date_of_value.
  rewrite bool_decide_eq_true_2 by done. reflexivity.
Qed.

Lemma isAfter_out_of_range (t v : Z) :
  MAX_TIME < Z.abs v → isAfter (ValidDate t) (Date_of_value (Some v)) = false.
Proof.
  intros Hrange. unfold Date_of_value.
  rewrite bool_decide_eq_false_2 by lia. reflexivity.
Qed.

(** C3, as the code has it: [isExpired] leaves the instance as a fresh
    [decode] of the current [id_token] leaves it; it returns false when the
    decoded claims have no [exp] (as after a decoder failure) and when [exp]
    is 0; for any other [exp] whose time [exp * 1000] a [Date] can hold, it
    returns true exactly when the clock is strictly after [exp * 1000]
    milliseconds. With [exp = 1000] the clock at 2000000 gives true and the
    clock at 500 gives false. *)
Theorem isExpired_fresh_decode_and_strict jwt s h :
  let st' := (decode jwt (s, h)).2 in
  let payload := default empty_payload (jwt (id_token s)) in
  ∃ expired : bool,
    isExpired jwt (s, h) = (Return expired, st')
    ∧ user st'.1 = Some payload
    ∧ (jwt (id_token s) = None → expired = false)
    ∧ (exp payload = None → expired = false)
    ∧ (exp payload = Some 0 → expired = false)
    ∧ (∀ e,
         exp payload = Some e → e ≠ 0 → Z.abs (e * 1000) ≤ MAX_TIME →
         (expired = true ↔ e * 1000 < now h))
    ∧ (exp payload = Some 1000 →
         (now h = 2000000 → expired = true)
         ∧ (now h = 500 → expired = false)).
Proof.
  intros st' payload. eexists. split; [apply isExpired_run|].
  fold payload. subst st'. rewrite decode_run.
  split; [done|].
  split.
  { intros Hfail. subst payload. by rewrite Hfail. }
  split; [by intros ->|].
  split; [by intros ->|].
  split.
  - intros e -> Hnz Hrange.
    destruct (Z.eqb_spec e 0) as [|_]; [done|].
    rewrite isAfter_in_range by done.
    apply bool_decide_eq_true.
  - intros ->. split; intros ->; reflexivity.
Qed.

(** C10: a decoded [exp] that is present and equal to 0 makes [isExpired]
    return false, whatever the clock says: the test on [exp] takes 0 for an
    absent claim. *)
Theorem isExpired_exp_zero jwt s h payload :
  jwt (id_token s) = Some payload →
  exp payload = Some 0 →
  (isExpired jwt (s, h)).1 = Return false.
Proof.
  intros Hjwt Hexp. rewrite isExpired_run. simpl.
  rewrite Hjwt. simpl. by rewrite Hexp.
Qed.

Lemma isExpired_exp_zero_witness :
  (isExpired (jwt_T 0) (app_T, browser 2000000)).1 = Return false.
Proof.
  apply (isExpired_exp_zero (jwt_T 0) app_T (browser 2000000)
           (payload_of_exp 0)); reflexivity.
Defined.

Lemma isExpired_strict_witness :
  (isExpired (jwt_T 1000) (app_T, browser 2000000)).1 = Return true
  ∧ (isExpired (jwt_T 1000) (app_T, browser 500)).1 = Return false
  ∧ (isExpired (jwt_T 1000) (app, browser 2000000)).1 = Return false.
Proof.
  split; [|split].
  - destruct (isExpired_fresh_decode_and_strict (jwt_T 1000) app_T
                (browser 2000000))
      as (expired & -> & _ & _ & _ & _ & Hstrict & _).
    simpl. f_equal. apply (Hstrict 1000); [reflexivity|lia|by vm_compute|].
    simpl. lia.
  - destruct (isExpired_fresh_decode_and_strict (jwt_T 1000) app_T
                (browser 500))
      as (expired & -> & _ & _ & _ & _ & _ & Hscenario).
    simpl. f_equal. by apply Hscenario.
  - destruct (isExpired_fresh_decode_and_strict (jwt_T 1000) app
                (browser 2000000))
      as (expired & -> & _ & Hfail & _).
    simpl. f_equal. by apply Hfail.
Defined.

(** The claim C3 as worded fails where [exp] is present and 0: the clock at
    2000000 ms is strictly after [0 * 1000] ms, and [isExpired] returns
    false. *)
Lemma isExpired_not_strict_at_epoch :
  jwt_T 0 (id_token app_T) = Some (payload_of_exp 0)
  ∧ exp (payload_of_exp 0) = Some 0
  ∧ bool_decide (0 * 1000 < now (browser 2000000)) = true
  ∧ (isExpired (jwt_T 0) (app_T, browser 2000000)).1 = Return false.
Proof. repeat split. Qed.

(** A time that no [Date] can hold is never after or before anything: with
    such an [exp] the answer is false on both sides of the range. *)
Lemma isExpired_out_of_range jwt s h payload e :
  jwt (id_token s) = Some payload →
  exp payload = Some e →
  MAX_TIME < Z.abs (e * 1000) →
  (isExpired jwt (s, h)).1 = Return false.
Proof.
  intros Hjwt Hexp Hrange. rewrite isExpired_run, Hjwt.
  cbn [fst from_option id]. rewrite Hexp.
  destruct (e =? 0); [done|]. by rewrite isAfter_out_of_range.
Qed.

(** ** [clearTokens] *)

(** The cookies [clearTokens] assigns, in the order of [Object.values]. *)
Lemma clearTokens_run s h :
  window h = true →
  clearTokens (s, h)
  = (Return (Some self),
     (s, {| window := window h; now := now h;
            document_cookie :=
              document_cookie h ++
              ((λ cookie_name,
                  serialize cookie_name ""
                    {| expires := Some (ValidDate (now h)); maxAge := None;
                       path := Some "/" |})
               <$> [prefix s +:+ ":access_token"; prefix s +:+ ":id_token";
                    prefix s +:+ ":refresh_token"; prefix s +:+ ":keep"]);
            console := console h |})).
Proof.
  intros Hwindow. unfold clearTokens.
  run_window_test Hwindow false. run_step.
  erewrite run_bind; [reflexivity|].
  apply (forEach_dated_assign
           (λ date cookie_name,
              serialize cookie_name ""
                {| expires := Some date; maxAge := None;
                   path := Some "/" |})).
Qed.

(** C6, as the code has it: in a browser context [clearTokens] serializes
    exactly the four prefixed names (access_token, id_token, refresh_token,
    keep), each with an empty value, path ["/"] and an expiration date equal
    to the current time, neither later nor strictly earlier. *)
Theorem clearTokens_expires_four_cookies_now s h :
  window h = true →
  let written :=
    drop (length (document_cookie h))
         (document_cookie (clearTokens (s, h)).2.2) in
  cookie_name <$> written
  = [prefix s +:+ ":access_token"; prefix s +:+ ":id_token";
     prefix s +:+ ":refresh_token"; prefix s +:+ ":keep"]
  ∧ Forall (λ c, cookie_value c = ""
                 ∧ path (cookie_attributes c) = Some "/"
                 ∧ maxAge (cookie_attributes c) = None
                 ∧ expires (cookie_attributes c) = Some (ValidDate (now h)))
           written
  ∧ take (length (document_cookie h))
         (document_cookie (clearTokens (s, h)).2.2)
    = document_cookie h.
Proof.
  intros Hwindow written. subst written.
  rewrite clearTokens_run by done. cbn [snd document_cookie].
  rewrite drop_app_length, take_app_length.
  split; [reflexivity|]. split; [|reflexivity].
  repeat constructor.
Qed.

Lemma clearTokens_expires_four_cookies_now_witness :
  cookie_name <$> document_cookie (clearTokens (app, browser 1000)).2.2
  = ["app:access_token"; "app:id_token"; "app:refresh_token"; "app:keep"].
Proof.
  pose proof (clearTokens_expires_four_cookies_now app (browser 1000)
                eq_refl) as (Hnames & _).
  exact Hnames.
Defined.

(** The claim C6 as worded fails on the expiration date: with the clock at
    1000 the four cookies are written and none of them expires strictly
    before 1000; each expires at 1000. *)
Lemma clearTokens_expiry_is_not_strictly_past :
  (let h' := (clearTokens (app, browser 1000)).2.2 in
   length (document_cookie h') = 4%nat
   ∧ existsb (expires_before (now h')) (document_cookie h') = false
   ∧ (λ c, expires (cookie_attributes c)) <$> document_cookie h'
     = replicate 4 (Some (ValidDate (now h')))).
Proof. repeat split. Qed.

(** C7: in a browser context [clearTokens] changes no field of the
    instance; of the host it only extends the cookies assigned to
    [document.cookie]. *)
Theorem clearTokens_keeps_instance s h :
  window h = true →
  let st' := (clearTokens (s, h)).2 in
  st'.1 = s
  ∧ (id_token st'.1 = id_token s
     ∧ access_token st'.1 = access_token s
     ∧ refresh_token st'.1 = refresh_token s
     ∧ persist st'.1 = persist s
     ∧ user st'.1 = user s
     ∧ cookie_string st'.1 = cookie_string s
     ∧ prefix st'.1 = prefix s)
  ∧ console st'.2 = console h
  ∧ ∃ written, document_cookie st'.2 = (document_cookie h ++ written)%list.
Proof.
  intros Hwindow st'. subst st'. rewrite clearTokens_run by done.
  cbn [fst snd console document_cookie]. repeat split. by eexists.
Qed.

Lemma clearTokens_keeps_instance_witness :
  (clearTokens (app_T, browser 1000)).2.1 = app_T.
Proof.
  exact (proj1 (clearTokens_keeps_instance app_T (browser 1000) eq_refl)).
Defined.

(** C9, as the code has it: outside a browser context [clearTokens] logs an
    error, assigns no cookie, leaves the instance alone and returns
    [undefined], not the instance. *)
Theorem clearTokens_server_returns_undefined s h :
  window h = false →
  clearTokens (s, h)
  = (Return None,
     (s, {| window := window h; now := now h;
            document_cookie := document_cookie h;
            console :=
              console h ++
              ["Trying to remove cookie in a server-side environment"] |})).
Proof.
  intros Hwindow. unfold clearTokens.
  run_window_test Hwindow true. reflexivity.
Qed.

Lemma clearTokens_server_returns_undefined_witness :
  (clearTokens (app_T, server 1000)).1 = Return None
  ∧ (clearTokens (app_T, browser 1000)).1 = Return (Some self).
Proof.
  split; [|reflexivity].
  by rewrite (clearTokens_server_returns_undefined app_T (server 1000)).
Defined.

(** ** [setTokens] *)

(** The options of every cookie [setTokens] serializes. *)
Lemma setTokens_run add props s h :
  window h = true →
  let keep := truthy (SetTokenProps.persist props) in
  let cookies_options :=
    {| expires := if keep
                  then Some (add (ValidDate (now h)) {| years := 1 |})
                  else None;
       maxAge := if keep then Some (365 * DAY) else None;
       path := None |} in
  setTokens add props (s, h)
  = (Return self,
     (with_persist (Some keep)
        (with_refresh_token (Some (SetTokenProps.refresh_token props))
           (with_id_token (Some (SetTokenProps.id_token props))
              (with_access_token (Some (SetTokenProps.access_token props))
                 s))),
      {| window := window h; now := now h;
         document_cookie :=
           document_cookie h ++
           [serialize (prefix s +:+ ":id_token")
              (SetTokenProps.id_token props) cookies_options;
            serialize (prefix s +:+ ":access_token")
              (SetTokenProps.access_token props) cookies_options;
            serialize (prefix s +:+ ":refresh_token")
              (SetTokenProps.refresh_token props) cookies_options] ++
           (if keep
            then [serialize (prefix s +:+ ":keep") "true" cookies_options]
            else []);
         console := console h |})).
Proof.
  intros Hwindow keep cookies_options. subst cookies_options keep.
  unfold setTokens, Boolean.
  run_window_test Hwindow false.
  destruct (truthy (SetTokenProps.persist props)).
  all: do 6 run_step.
  all: erewrite run_bind; [reflexivity|].
  all: rewrite (forEach_assign (λ c, c)), list_fmap_id.
  all: reflexivity.
Qed.

(** C5, as the code has it: without a browser window [setTokens] throws a
    plain [Error] whose message is "Trying to set cookie in a server-side
    environment"; no cookie has been assigned and no field of the instance
    has changed when it does, and nothing in the method catches it. *)
Theorem setTokens_server_throws add props s h :
  window h = false →
  setTokens add props (s, h)
  = (Throw (Error "Trying to set cookie in a server-side environment"),
     (s, h)).
Proof.
  intros Hwindow. unfold setTokens.
  run_window_test Hwindow true. reflexivity.
Qed.

Lemma setTokens_server_throws_witness :
  setTokens add_365 (tokens_T (Some true)) (app, server 1000)
  = (Throw (Error "Trying to set cookie in a server-side environment"),
     (app, server 1000)).
Proof.
  exact (setTokens_server_throws add_365 (tokens_T (Some true)) app
           (server 1000) eq_refl).
Defined.

(** The claim C5 as worded fails on the message: what is thrown without a
    window carries another text than "cannot set cookies outside a client
    context". *)
Lemma setTokens_server_message_differs :
  ∃ message,
    (setTokens add_365 (tokens_T (Some true)) (app, server 1000)).1
    = Throw (Error message)
    ∧ String.eqb message "cannot set cookies outside a client context"
      = false.
Proof. eexists. split; reflexivity. Qed.

(** C2: in a browser context, with [persist] true [setTokens] writes the
    three token cookies and a fourth cookie [keep] of value ["true"], each
    with the expiration [add(new Date(), { years: 1 })] and a max-age of
    365 * 86400 seconds; with [persist] false or omitted it writes exactly
    the three token cookies, none with an expiration or a max-age, and no
    [keep] cookie. *)
Theorem setTokens_persistence_attributes add props s h :
  window h = true →
  let written :=
    drop (length (document_cookie h))
         (document_cookie (setTokens add props (s, h)).2.2) in
  let named_values := (λ c, (cookie_name c, cookie_value c)) <$> written in
  (SetTokenProps.persist props = Some true →
     named_values
     = [(prefix s +:+ ":id_token", SetTokenProps.id_token props);
        (prefix s +:+ ":access_token", SetTokenProps.access_token props);
        (prefix s +:+ ":refresh_token", SetTokenProps.refresh_token props);
        (prefix s +:+ ":keep", "true")]
     ∧ Forall (λ c, expires (cookie_attributes c)
                    = Some (add (ValidDate (now h)) {| years := 1 |})
                    ∧ maxAge (cookie_attributes c) = Some (365 * 86400))
              written)
  ∧ (SetTokenProps.persist props = Some false
     ∨ SetTokenProps.persist props = None →
     named_values
     = [(prefix s +:+ ":id_token", SetTokenProps.id_token props);
        (prefix s +:+ ":access_token", SetTokenProps.access_token props);
        (prefix s +:+ ":refresh_token", SetTokenProps.refresh_token props)]
     ∧ Forall (λ c, expires (cookie_attributes c) = None
                    ∧ maxAge (cookie_attributes c) = None)
              written
     ∧ prefix s +:+ ":keep" ∉ cookie_name <$> written).
Proof.
  intros Hwindow written named_values. subst named_values written.
  rewrite setTokens_run by done. cbn [snd document_cookie].
  rewrite drop_app_length.
  split.
  - intros ->. split; [reflexivity|]. repeat constructor.
  - intros Hsession.
    assert (truthy (SetTokenProps.persist props) = false) as ->
      by (by destruct Hsession as [-> | ->]).
    split; [reflexivity|]. split; [repeat constructor|].
    cbn. rewrite !not_elem_of_cons. repeat split.
    + by apply prefixed_ne.
    + by apply prefixed_ne.
    + by apply prefixed_ne.
    + apply not_elem_of_nil.
Qed.

Lemma setTokens_persistence_attributes_witness :
  ((λ c, (cookie_name c, cookie_value c))
   <$> document_cookie
         (setTokens add_365 (tokens_T (Some true)) (app, browser 1000)).2.2
   = [("app:id_token", "T"); ("app:access_token", "a");
      ("app:refresh_token", "r"); ("app:keep", "true")])
  ∧ ((λ c, (cookie_name c, cookie_value c))
     <$> document_cookie
           (setTokens add_365 (tokens_T None) (app, browser 1000)).2.2
     = [("app:id_token", "T"); ("app:access_token", "a");
        ("app:refresh_token", "r")]).
Proof.
  split.
  - destruct (setTokens_persistence_attributes add_365 (tokens_T (Some true))
                app (browser 1000) eq_refl) as [Hkeep _].
    exact (proj1 (Hkeep eq_refl)).
  - destruct (setTokens_persistence_attributes add_365 (tokens_T None)
                app (browser 1000) eq_refl) as [_ Hsession].
    exact (proj1 (Hsession (or_intror eq_refl))).
Defined.

(** ** [getTokens] *)

(** C8: [getTokens()] without an argument on an instance that caches no
    cookie string returns the instance and changes nothing, neither a field
    nor the host; it does not throw. *)
Theorem getTokens_without_cookie_string parse s h :
  cookie_string s = None →
  getTokens parse None (s, h) = (Return self, (s, h)).
Proof.
  intros Hnone. unfold getTokens. run_step.
  by rewrite Hnone.
Qed.

(** Constructed without [cookie_string], the instance caches none. *)
Lemma constructor_without_cookie_string parse p host :
  new_AuthCookieStorage parse (AuthCookieStorageProps.mk p None) host
  = (Return tt, (with_prefix p blank, host)).
Proof. reflexivity. Qed.

Lemma getTokens_without_cookie_string_witness :
  (new_AuthCookieStorage parse_plain (AuthCookieStorageProps.mk "app" None)
     (server 0)).2 = (app, server 0)
  ∧ getTokens parse_plain None (app, server 0)
    = (Return self, (app, server 0)).
Proof.
  split; [reflexivity|].
  exact (getTokens_without_cookie_string parse_plain app (server 0) eq_refl).
Defined.

(** What [getTokens] does with a cookie string it accepts. *)
Lemma getTokens_run parse (argument : string) s h :
  truthy argument || truthy (cookie_string s) = true →
  let cookies := parse argument in
  getTokens parse (Some argument) (s, h)
  = (Return self,
     (with_persist (Some (Boolean (cookies !! (prefix s +:+ ":keep"))))
        (with_refresh_token (cookies !! (prefix s +:+ ":refresh_token"))
           (with_id_token (cookies !! (prefix s +:+ ":id_token"))
              (with_access_token (cookies !! (prefix s +:+ ":access_token"))
                 (with_cookie_string (Some argument) s)))),
      h)).
Proof.
  intros Haccepted cookies. subst cookies. unfold getTokens. run_step.
  replace (negb (truthy (Some argument)) && negb (truthy (cookie_string s)))
    with false.
  2: { symmetry. apply andb_false_iff.
       apply orb_true_iff in Haccepted as [Harg | Hcached].
       - left. change (truthy (Some argument)) with (truthy argument).
         by rewrite Harg.
       - right. by rewrite Hcached. }
  assert (or_empty (Some argument) = argument) as Hor
    by (by destruct argument).
  do 2 run_step.
  cbn [with_cookie_string cookie_string prefix]. rewrite Hor.
  do 4 run_step. reflexivity.
Qed.

(** The cookies [setTokens] leaves in a jar that was empty. *)
Lemma written_cookies_setTokens (p i a r : string) o (keep : bool) :
  let jar :=
    written_cookies
      ([serialize (p +:+ ":id_token") i o;
        serialize (p +:+ ":access_token") a o;
        serialize (p +:+ ":refresh_token") r o] ++
       (if keep then [serialize (p +:+ ":keep") "true" o] else [])) in
  jar !! (p +:+ ":id_token") = Some i
  ∧ jar !! (p +:+ ":access_token") = Some a
  ∧ jar !! (p +:+ ":refresh_token") = Some r
  ∧ jar !! (p +:+ ":keep") = if keep then Some "true" else None.
Proof.
  assert (p +:+ ":id_token" ≠ p +:+ ":access_token")
    by by apply prefixed_ne.
  assert (p +:+ ":id_token" ≠ p +:+ ":refresh_token")
    by by apply prefixed_ne.
  assert (p +:+ ":id_token" ≠ p +:+ ":keep") by by apply prefixed_ne.
  assert (p +:+ ":access_token" ≠ p +:+ ":refresh_token")
    by by apply prefixed_ne.
  assert (p +:+ ":access_token" ≠ p +:+ ":keep") by by apply prefixed_ne.
  assert (p +:+ ":refresh_token" ≠ p +:+ ":keep") by by apply prefixed_ne.
  intros jar. subst jar. unfold written_cookies.
  destruct keep; cbn [app foldl serialize cookie_name cookie_value];
    repeat split; by simplify_map_eq.
Qed.

(** C1: in a browser whose jar was empty, [setTokens] followed by
    [getTokens] on a cookie string that reports the cookies just written
    and no other leaves in [id_token], [access_token] and [refresh_token]
    the three strings given to [setTokens], and in [persist] the boolean of
    the flag given, for every prefix. It is [getTokens] that puts them
    there: the same holds when the string is read by an instance of that
    prefix whose fields hold anything else (the instance that called
    [setTokens] with its fields overwritten since, or another instance),
    provided the read is not skipped, that is, the reported string or the
    string this instance caches is non-empty. *)
Theorem setTokens_getTokens_roundtrip parse add props s h reported :
  window h = true →
  document_cookie h = [] →
  let st := (setTokens add props (s, h)).2 in
  parse reported = written_cookies (document_cookie st.2) →
  (setTokens add props (s, h)).1 = Return self
  ∧ (∃ st',
       getTokens parse (Some reported) st = (Return self, st')
       ∧ id_token st'.1 = Some (SetTokenProps.id_token props)
       ∧ access_token st'.1 = Some (SetTokenProps.access_token props)
       ∧ refresh_token st'.1 = Some (SetTokenProps.refresh_token props)
       ∧ persist st'.1 = Some (Boolean (SetTokenProps.persist props))
       ∧ prefix st'.1 = prefix s)
  ∧ (∀ held host,
       prefix held = prefix s →
       truthy reported || truthy (cookie_string held) = true →
       ∃ st',
         getTokens parse (Some reported) (held, host) = (Return self, st')
         ∧ id_token st'.1 = Some (SetTokenProps.id_token props)
         ∧ access_token st'.1 = Some (SetTokenProps.access_token props)
         ∧ refresh_token st'.1 = Some (SetTokenProps.refresh_token props)
         ∧ persist st'.1 = Some (Boolean (SetTokenProps.persist props))
         ∧ cookie_string st'.1 = Some reported
         ∧ prefix st'.1 = prefix s
         ∧ st'.2 = host).
Proof.
  intros Hwindow Hempty st. subst st.
  rewrite setTokens_run by done. cbn [fst snd document_cookie].
  rewrite Hempty, app_nil_l. intros Hreported.
  set (s1 := with_persist _ _). set (h1 := Build_Host _ _ _ _).
  destruct (written_cookies_setTokens (prefix s)
              (SetTokenProps.id_token props)
              (SetTokenProps.access_token props)
              (SetTokenProps.refresh_token props)
              {| expires :=
                   if truthy (SetTokenProps.persist props)
                   then Some (add (ValidDate (now h)) {| years := 1 |})
                   else None;
                 maxAge :=
                   if truthy (SetTokenProps.persist props)
                   then Some (365 * DAY) else None;
                 path := None |}
              (truthy (SetTokenProps.persist props)))
    as (Hid & Haccess & Hrefresh & Hkeep).
  rewrite <- Hreported in Hid, Haccess, Hrefresh, Hkeep.
  assert (Boolean (parse reported !! (prefix s +:+ ":keep"))
          = Boolean (SetTokenProps.persist props)) as Hpersist.
  { rewrite Hkeep. unfold Boolean.
    by destruct (truthy (SetTokenProps.persist props)). }
  split; [reflexivity|]. split.
  - destruct (truthy reported || truthy (cookie_string s1)) eqn:Haccepted.
    + eexists. split; [by apply getTokens_run|].
      cbn [fst with_persist with_refresh_token with_id_token
           with_access_token with_cookie_string id_token access_token
           refresh_token persist prefix].
      change (prefix s1) with (prefix s).
      rewrite Hid, Haccess, Hrefresh, Hpersist. repeat split.
    + apply orb_false_iff in Haccepted as [Hreport Hcached].
      exists (s1, h1). split; [|by repeat split].
      unfold getTokens. run_step.
      change (truthy (Some reported)) with (truthy reported).
      by rewrite Hreport, Hcached.
  - intros held host Hprefix Haccepted.
    eexists. split; [by apply getTokens_run|].
    cbn [fst snd with_persist with_refresh_token with_id_token
         with_access_token with_cookie_string id_token access_token
         refresh_token persist prefix cookie_string].
    rewrite Hprefix, Hid, Haccess, Hrefresh, Hpersist. repeat split.
Qed.

Lemma setTokens_getTokens_roundtrip_witness :
  let st := (setTokens add_365 (tokens_T (Some true)) (app, browser 1000)).2 in
  let reported :=
    "app:id_token=T; app:access_token=a; app:refresh_token=r; app:keep=true" in
  let read := (getTokens parse_plain (Some reported) st).2.1 in
  let held :=
    with_persist (Some false)
      (with_refresh_token (Some "s")
         (with_access_token (Some "b") (with_id_token (Some "U") app))) in
  let read_held :=
    (getTokens parse_plain (Some reported) (held, server 0)).2.1 in
  parse_plain reported = written_cookies (document_cookie st.2)
  ∧ (id_token read = Some "T"
     ∧ access_token read = Some "a"
     ∧ refresh_token read = Some "r"
     ∧ persist read = Some true)
  ∧ (id_token held = Some "U" ∧ persist held = Some false)
  ∧ (id_token read_held = Some "T"
     ∧ access_token read_held = Some "a"
     ∧ refresh_token read_held = Some "r"
     ∧ persist read_held = Some true).
Proof.
  intros st reported read held read_held.
  subst read_held read st.
  assert (parse_plain reported
          = written_cookies
              (document_cookie
                 (setTokens add_365 (tokens_T (Some true))
                    (app, browser 1000)).2.2))
    as Hreported by (by vm_compute).
  split; [exact Hreported|].
  destruct (setTokens_getTokens_roundtrip parse_plain add_365
              (tokens_T (Some true)) app (browser 1000) reported
              eq_refl eq_refl Hreported)
    as (_ & (st' & Hget & Hid & Haccess & Hrefresh & Hpersist & _) & Hany).
  split.
  { rewrite Hget. cbn [fst snd].
    by rewrite Hid, Haccess, Hrefresh, Hpersist. }
  split; [by split|].
  destruct (Hany held (server 0) eq_refl eq_refl)
    as (st'' & Hget' & Hid' & Haccess' & Hrefresh' & Hpersist' & _).
  rewrite Hget'. cbn [fst snd].
  by rewrite Hid', Haccess', Hrefresh', Hpersist'.
Defined.

(** * Further properties of the methods *)

(** ** [getTokens] on any argument *)

(** [getTokens] returns at once when neither its argument nor the cached
    string is a non-empty string. *)
Lemma getTokens_skip parse argument s h :
  truthy argument = false →
  truthy (cookie_string s) = false →
  getTokens parse argument (s, h) = (Return self, (s, h)).
Proof.
  intros Hargument Hcached. unfold getTokens. run_step.
  destruct argument as [a|].
  - by rewrite Hargument, Hcached.
  - by rewrite Hcached.
Qed.

(** Otherwise it caches the string it settles on (the argument, or the
    cached string when the argument is omitted) and reads the four cookies
    from it. *)
Lemma getTokens_read parse argument s h :
  let chosen :=
    match argument with Some a => Some a | None => cookie_string s end in
  let cookies := parse (or_empty chosen) in
  truthy chosen || truthy (cookie_string s) = true →
  getTokens parse argument (s, h)
  = (Return self,
     (with_persist (Some (Boolean (cookies !! (prefix s +:+ ":keep"))))
        (with_refresh_token (cookies !! (prefix s +:+ ":refresh_token"))
           (with_id_token (cookies !! (prefix s +:+ ":id_token"))
              (with_access_token (cookies !! (prefix s +:+ ":access_token"))
                 (with_cookie_string chosen s)))),
      h)).
Proof.
  intros chosen cookies Haccepted. subst cookies.
  unfold getTokens. run_step. fold chosen.
  apply orb_true_iff in Haccepted.
  assert (negb (truthy chosen) && negb (truthy (cookie_string s)) = false)
    as -> by (apply andb_false_iff; destruct Haccepted as [-> | ->]; auto).
  do 6 run_step. reflexivity.
Qed.

(** The two ways through [getTokens], for a use by cases. *)
Lemma getTokens_cases parse argument s h :
  let chosen :=
    match argument with Some a => Some a | None => cookie_string s end in
  (truthy chosen = false ∧ truthy (cookie_string s) = false
   ∧ getTokens parse argument (s, h) = (Return self, (s, h)))
  ∨ (truthy chosen || truthy (cookie_string s) = true
     ∧ getTokens parse argument (s, h)
       = (Return self,
          (with_persist
             (Some (Boolean (parse (or_empty chosen)
                             !! (prefix s +:+ ":keep"))))
             (with_refresh_token
                (parse (or_empty chosen) !! (prefix s +:+ ":refresh_token"))
                (with_id_token
                   (parse (or_empty chosen) !! (prefix s +:+ ":id_token"))
                   (with_access_token
                      (parse (or_empty chosen)
                       !! (prefix s +:+ ":access_token"))
                      (with_cookie_string chosen s)))),
           h))).
Proof.
  intros chosen.
  destruct (truthy chosen || truthy (cookie_string s)) eqn:Haccepted.
  - right. split; [done|]. by apply getTokens_read.
  - left. apply orb_false_iff in Haccepted as [Hchosen Hcached].
    split; [done|]. split; [done|].
    apply getTokens_skip; [|done].
    subst chosen. destruct argument; [done|]. reflexivity.
Qed.

(** X1: [getTokens] never throws, whatever its argument and whatever the
    cookie string holds; it leaves [prefix] and [user] as they were and does
    nothing to the host (no cookie assigned, nothing logged). *)
Theorem getTokens_never_throws_and_frame parse argument s h :
  ∃ s', getTokens parse argument (s, h) = (Return self, (s', h))
        ∧ prefix s' = prefix s
        ∧ user s' = user s.
Proof.
  destruct (getTokens_cases parse argument s h)
    as [(_ & _ & ->) | (_ & ->)]; eexists; repeat split.
Qed.

(** X2: when [getTokens] reads a non-empty cookie string, a token whose
    cookie is missing from it becomes undefined on the instance, whatever
    the instance held before, and a missing [keep] cookie makes [persist]
    false. *)
Theorem getTokens_missing_cookie_clears parse (argument : string) s h :
  truthy argument = true →
  let cookies := parse argument in
  let s' := (getTokens parse (Some argument) (s, h)).2.1 in
  (cookies !! (prefix s +:+ ":id_token") = None → id_token s' = None)
  ∧ (cookies !! (prefix s +:+ ":access_token") = None →
     access_token s' = None)
  ∧ (cookies !! (prefix s +:+ ":refresh_token") = None →
     refresh_token s' = None)
  ∧ (cookies !! (prefix s +:+ ":keep") = None → persist s' = Some false).
Proof.
  intros Htruthy cookies s'. subst s' cookies.
  rewrite getTokens_run by (by rewrite Htruthy).
  cbn [fst snd id_token access_token refresh_token persist with_persist
       with_refresh_token with_id_token with_access_token].
  repeat split; by intros ->.
Qed.

Lemma getTokens_missing_cookie_clears_witness :
  let s' := (getTokens parse_plain (Some "theme=dark") (app_T, server 0)).2.1 in
  id_token app_T = Some "T" ∧ id_token s' = None ∧ persist s' = Some false.
Proof.
  intros s'. split; [reflexivity|].
  destruct (getTokens_missing_cookie_clears parse_plain "theme=dark" app_T
              (server 0) eq_refl) as (Hid & _ & _ & Hkeep).
  split; [apply Hid | apply Hkeep]; by vm_compute.
Defined.

(** X3: [persist] is read off the truthiness of the [keep] cookie, not off
    its text: after [getTokens] read a non-empty cookie string, [persist] is
    true for every non-empty [keep] value (["false"] included) and false
    for the empty one. *)
Theorem getTokens_persist_is_truthiness parse (argument keep : string) s h :
  truthy argument = true →
  parse argument !! (prefix s +:+ ":keep") = Some keep →
  persist (getTokens parse (Some argument) (s, h)).2.1
  = Some (negb (String.eqb keep "")).
Proof.
  intros Htruthy Hkeep.
  rewrite getTokens_run by (by rewrite Htruthy).
  cbn [fst snd persist with_persist]. rewrite Hkeep.
  by destruct keep.
Qed.

Lemma getTokens_persist_is_truthiness_witness :
  persist (getTokens parse_plain (Some "app:keep=false") (app, server 0)).2.1
  = Some true.
Proof.
  exact (getTokens_persist_is_truthiness parse_plain "app:keep=false"
           "false" app (server 0) eq_refl eq_refl).
Defined.

(** X4: the empty string is no cookie source. On an instance that caches no
    non-empty cookie string, [getTokens("")] changes nothing: the tokens in
    memory stay, although the string given holds none. *)
Theorem getTokens_empty_string_keeps_tokens parse s h :
  truthy (cookie_string s) = false →
  getTokens parse (Some "") (s, h) = (Return self, (s, h)).
Proof. intros Hcached. by apply getTokens_skip. Qed.

Lemma getTokens_empty_string_keeps_tokens_witness :
  id_token (getTokens parse_plain (Some "") (app_T, browser 0)).2.1
  = Some "T".
Proof.
  by rewrite (getTokens_empty_string_keeps_tokens parse_plain app_T
                (browser 0) eq_refl).
Defined.

(** X5: on an instance that caches a non-empty cookie string,
    [getTokens("")] replaces the cached string by the empty one and reads
    the tokens from the empty string; the former string is lost, and a
    following [getTokens()] without argument changes nothing. *)
Theorem getTokens_empty_string_drops_cache parse s h :
  truthy (cookie_string s) = true →
  let st' := (getTokens parse (Some "") (s, h)).2 in
  cookie_string st'.1 = Some ""
  ∧ id_token st'.1 = parse "" !! (prefix s +:+ ":id_token")
  ∧ access_token st'.1 = parse "" !! (prefix s +:+ ":access_token")
  ∧ refresh_token st'.1 = parse "" !! (prefix s +:+ ":refresh_token")
  ∧ getTokens parse None st' = (Return self, st').
Proof.
  intros Hcached st'. subst st'.
  rewrite getTokens_run by (by rewrite Hcached, orb_true_r).
  cbn [fst snd]. split; [reflexivity|]. do 3 (split; [reflexivity|]).
  by apply getTokens_skip.
Qed.

Lemma getTokens_empty_string_drops_cache_witness :
  let st := (getTokens parse_plain None (app_cached, browser 0)).2 in
  let st' := (getTokens parse_plain (Some "") st).2 in
  id_token st.1 = Some "T"
  ∧ id_token st'.1 = None
  ∧ cookie_string st'.1 = Some ""
  ∧ id_token (getTokens parse_plain None st').2.1 = None.
Proof.
  intros st st'. subst st' st.
  split; [reflexivity|]. split; [reflexivity|].
  destruct (getTokens_empty_string_drops_cache parse_plain
              (getTokens parse_plain None (app_cached, browser 0)).2.1
              (browser 0) eq_refl) as (Hcache & _ & _ & _ & Hagain).
  split; [exact Hcache|].
  exact (f_equal (λ result, id_token result.2.1) Hagain).
Defined.

(** Assigning a field the value it holds changes nothing. *)
Lemma reread_same_fields (s : AuthCookieStorage) keep refresh identity access
    cached :
  let s' :=
    with_persist keep
      (with_refresh_token refresh
         (with_id_token identity
            (with_access_token access (with_cookie_string cached s)))) in
  with_persist keep
    (with_refresh_token refresh
       (with_id_token identity
          (with_access_token access (with_cookie_string cached s'))))
  = s'.
Proof. reflexivity. Qed.

(** X6: reading again is idle. After any call of [getTokens], a call
    without argument returns the instance and changes nothing: it reads the
    cached string, which is the one just read. *)
Theorem getTokens_reread_is_idle parse argument s h :
  let st' := (getTokens parse argument (s, h)).2 in
  getTokens parse None st' = (Return self, st').
Proof.
  intros st'. subst st'.
  destruct (getTokens_cases parse argument s h)
    as [(Hchosen & Hcached & ->) | (Haccepted & ->)]; cbn [snd].
  - by apply getTokens_skip.
  - set (chosen := match argument with
                   | Some a => Some a
                   | None => cookie_string s
                   end) in *.
    destruct (truthy chosen) eqn:Hchosen.
    + rewrite getTokens_read
        by (cbn [cookie_string with_persist with_refresh_token with_id_token
                 with_access_token with_cookie_string];
            by rewrite Hchosen).
      cbn [cookie_string prefix with_persist with_refresh_token with_id_token
           with_access_token with_cookie_string].
      by rewrite reread_same_fields.
    + by apply getTokens_skip.
Qed.

(** ** The constructor *)

(** X7: constructed with a non-empty cookie string, the instance caches it
    and holds the tokens of the four prefixed cookies in it (undefined for
    a missing one); [user] stays undefined until [decode] is called, the
    host is not touched and nothing is thrown. *)
Theorem constructor_reads_cookie_string parse p (given : string) host :
  truthy given = true →
  let cookies := parse given in
  ∃ s,
    new_AuthCookieStorage parse (AuthCookieStorageProps.mk p (Some given))
      host
    = (Return tt, (s, host))
    ∧ prefix s = p
    ∧ cookie_string s = Some given
    ∧ id_token s = cookies !! (p +:+ ":id_token")
    ∧ access_token s = cookies !! (p +:+ ":access_token")
    ∧ refresh_token s = cookies !! (p +:+ ":refresh_token")
    ∧ persist s = Some (Boolean (cookies !! (p +:+ ":keep")))
    ∧ user s = None.
Proof.
  intros Htruthy cookies. subst cookies.
  unfold new_AuthCookieStorage, constructor. run_step.
  cbn [AuthCookieStorageProps.cookie_string AuthCookieStorageProps.prefix].
  change (truthy (Some given)) with (truthy given). rewrite Htruthy.
  cbn [negb]. run_step.
  erewrite run_bind by (apply getTokens_run; by rewrite Htruthy).
  eexists. split; [reflexivity|]. repeat split.
Qed.

Lemma constructor_reads_cookie_string_witness :
  let s :=
    (new_AuthCookieStorage parse_plain
       (AuthCookieStorageProps.mk "app"
          (Some "app:id_token=T; app:access_token=a"))
       (server 0)).2.1 in
  id_token s = Some "T" ∧ access_token s = Some "a"
  ∧ refresh_token s = None ∧ persist s = Some false.
Proof.
  intros s. subst s.
  destruct (constructor_reads_cookie_string parse_plain "app"
              "app:id_token=T; app:access_token=a" (server 0) eq_refl)
    as (s & Hnew & _ & _ & Hid & Haccess & Hrefresh & Hpersist & _).
  rewrite Hnew. cbn [fst snd].
  rewrite Hid, Haccess, Hrefresh, Hpersist. by vm_compute.
Defined.

(** X8: constructed with the empty string, as without a cookie string, the
    instance has its prefix and nothing else: no token, no [persist], no
    cached string, and [parse] is not consulted. *)
Theorem constructor_ignores_empty_string parse p given host :
  truthy given = false →
  new_AuthCookieStorage parse (AuthCookieStorageProps.mk p given) host
  = (Return tt, (with_prefix p blank, host)).
Proof.
  intros Hfalsy. unfold new_AuthCookieStorage, constructor. run_step.
  cbn [AuthCookieStorageProps.cookie_string]. by rewrite Hfalsy.
Qed.

Lemma constructor_ignores_empty_string_witness :
  (new_AuthCookieStorage parse_plain
     (AuthCookieStorageProps.mk "app" (Some "")) (server 0)).2.1
  = app.
Proof.
  by rewrite (constructor_ignores_empty_string parse_plain "app" (Some "")
                (server 0) eq_refl).
Defined.

(** ** [setTokens] and what follows it *)

(** X9: in a browser context [setTokens] replaces the three tokens and
    [persist] in memory and leaves the rest of the instance as it was: [user]
    still holds the claims decoded before, the cached cookie string is not
    refreshed, and nothing is logged. *)
Theorem setTokens_updates_tokens_only add props s h :
  window h = true →
  let st' := (setTokens add props (s, h)).2 in
  id_token st'.1 = Some (SetTokenProps.id_token props)
  ∧ access_token st'.1 = Some (SetTokenProps.access_token props)
  ∧ refresh_token st'.1 = Some (SetTokenProps.refresh_token props)
  ∧ persist st'.1 = Some (Boolean (SetTokenProps.persist props))
  ∧ user st'.1 = user s
  ∧ cookie_string st'.1 = cookie_string s
  ∧ prefix st'.1 = prefix s
  ∧ console st'.2 = console h.
Proof.
  intros Hwindow st'. subst st'. rewrite setTokens_run by done.
  cbn [fst snd]. repeat split.
Qed.

Lemma setTokens_updates_tokens_only_witness :
  let s := with_user (Some (payload_of_exp 1000)) app_cached in
  let st' := (setTokens add_365 (tokens_T None) (s, browser 0)).2 in
  id_token st'.1 = Some "T"
  ∧ persist st'.1 = Some false
  ∧ user st'.1 = Some (payload_of_exp 1000)
  ∧ cookie_string st'.1 = Some "app:id_token=T; app:keep=false".
Proof.
  intros s st'. subst st'.
  destruct (setTokens_updates_tokens_only add_365 (tokens_T None) s
              (browser 0) eq_refl)
    as (Hid & _ & _ & Hpersist & Huser & Hcached & _).
  split; [exact Hid|]. split; [exact Hpersist|].
  split; [exact Huser | exact Hcached].
Defined.

(** X10: [setTokens] does not refresh the cached cookie string, so a
    [getTokens()] without argument right after it reads the cached string
    again and puts back the tokens and the [persist] of that string: the
    instance ends as if [setTokens] had not been called. *)
Theorem setTokens_then_getTokens_restores_cached parse add props s h :
  window h = true →
  truthy (cookie_string s) = true →
  (getTokens parse None (setTokens add props (s, h)).2).2.1
  = (getTokens parse None (s, h)).2.1.
Proof.
  intros Hwindow Hcached. rewrite setTokens_run by done. cbn [snd].
  rewrite !getTokens_read
    by (cbn [cookie_string with_persist with_refresh_token with_id_token
             with_access_token]; by rewrite Hcached).
  reflexivity.
Qed.

Lemma setTokens_then_getTokens_restores_cached_witness :
  let set :=
    (setTokens add_365 (SetTokenProps.mk "U" "a" "r" (Some true))
       (app_cached, browser 0)).2 in
  id_token set.1 = Some "U"
  ∧ id_token (getTokens parse_plain None set).2.1 = Some "T".
Proof.
  intros set. subst set. split; [reflexivity|].
  rewrite (setTokens_then_getTokens_restores_cached parse_plain add_365
             (SetTokenProps.mk "U" "a" "r" (Some true)) app_cached
             (browser 0) eq_refl eq_refl).
  reflexivity.
Defined.

(** X11: no cookie [setTokens] writes carries a path, with or without
    [persist]; the path ["/"] is only on the cookies [clearTokens] writes. *)
Theorem setTokens_sets_no_path add props s h :
  window h = true →
  Forall (λ c, path (cookie_attributes c) = None)
         (drop (length (document_cookie h))
               (document_cookie (setTokens add props (s, h)).2.2)).
Proof.
  intros Hwindow. rewrite setTokens_run by done. cbn [snd document_cookie].
  rewrite drop_app_length.
  destruct (truthy (SetTokenProps.persist props)); repeat constructor.
Qed.

Lemma setTokens_sets_no_path_witness :
  path ∘ cookie_attributes
  <$> document_cookie
        (setTokens add_365 (tokens_T (Some true)) (app, browser 0)).2.2
  = [None; None; None; None].
Proof.
  pose proof (setTokens_sets_no_path add_365 (tokens_T (Some true)) app
                (browser 0) eq_refl) as Hpaths.
  apply Forall_fmap_ext_1 with (g := λ _, None) in Hpaths.
  exact Hpaths.
Defined.

(** The jar after a persistent [setTokens] followed by a session one. *)
Lemma written_cookies_toggle (p i a r i' a' r' : string) o o' :
  let jar :=
    written_cookies
      ([serialize (p +:+ ":id_token") i o;
        serialize (p +:+ ":access_token") a o;
        serialize (p +:+ ":refresh_token") r o;
        serialize (p +:+ ":keep") "true" o] ++
       [serialize (p +:+ ":id_token") i' o';
        serialize (p +:+ ":access_token") a' o';
        serialize (p +:+ ":refresh_token") r' o']) in
  jar !! (p +:+ ":id_token") = Some i'
  ∧ jar !! (p +:+ ":access_token") = Some a'
  ∧ jar !! (p +:+ ":refresh_token") = Some r'
  ∧ jar !! (p +:+ ":keep") = Some "true".
Proof.
  assert (p +:+ ":id_token" ≠ p +:+ ":access_token")
    by by apply prefixed_ne.
  assert (p +:+ ":id_token" ≠ p +:+ ":refresh_token")
    by by apply prefixed_ne.
  assert (p +:+ ":id_token" ≠ p +:+ ":keep") by by apply prefixed_ne.
  assert (p +:+ ":access_token" ≠ p +:+ ":refresh_token")
    by by apply prefixed_ne.
  assert (p +:+ ":access_token" ≠ p +:+ ":keep") by by apply prefixed_ne.
  assert (p +:+ ":refresh_token" ≠ p +:+ ":keep") by by apply prefixed_ne.
  intros jar. subst jar. unfold written_cookies.
  cbn [app foldl serialize cookie_name cookie_value].
  repeat split; by simplify_map_eq.
Qed.

(** X12: switching [persist] off leaves the [keep] cookie behind. After a
    [setTokens] with [persist] true and a second one with [persist] false or
    omitted, in a browser whose jar was empty, [persist] is false in memory
    while the jar still holds [keep] with value ["true"]; a [getTokens] on a
    non-empty cookie string reporting that jar reads the second triplet and
    [persist] true. *)
Theorem setTokens_persist_off_leaves_keep parse add first second s h
    (reported : string) :
  window h = true →
  document_cookie h = [] →
  truthy (SetTokenProps.persist first) = true →
  truthy (SetTokenProps.persist second) = false →
  truthy reported = true →
  let st1 := (setTokens add first (s, h)).2 in
  let st2 := (setTokens add second st1).2 in
  parse reported = written_cookies (document_cookie st2.2) →
  let read := (getTokens parse (Some reported) st2).2.1 in
  persist st2.1 = Some false
  ∧ written_cookies (document_cookie st2.2) !! (prefix s +:+ ":keep")
    = Some "true"
  ∧ persist read = Some true
  ∧ id_token read = Some (SetTokenProps.id_token second)
  ∧ access_token read = Some (SetTokenProps.access_token second)
  ∧ refresh_token read = Some (SetTokenProps.refresh_token second).
Proof.
  intros Hwindow Hempty Hfirst Hsecond Hreported st1 st2.
  subst st2 st1.
  rewrite (setTokens_run add first) by done. cbn [snd].
  rewrite setTokens_run by done.
  cbn [fst snd document_cookie prefix with_persist with_refresh_token
       with_id_token with_access_token].
  rewrite Hempty, Hfirst, Hsecond, app_nil_l, app_nil_r.
  match goal with
  | |- context [written_cookies (([?c1; ?c2; ?c3] ++ [?c4]) ++ ?l)] =>
      change (([c1; c2; c3] ++ [c4]) ++ l)%list
        with ([c1; c2; c3; c4] ++ l)%list
  end.
  intros Hjar.
  rewrite getTokens_run by (by rewrite Hreported).
  cbn [fst snd prefix persist id_token access_token refresh_token
       with_persist with_refresh_token with_id_token with_access_token
       with_cookie_string].
  rewrite Hjar.
  match goal with
  | |- context [written_cookies ([serialize _ ?i ?o; serialize _ ?a _;
                                  serialize _ ?r _; _] ++
                                 [serialize _ ?i' ?o'; serialize _ ?a' _;
                                  serialize _ ?r' _])] =>
      destruct (written_cookies_toggle (prefix s) i a r i' a' r' o o')
        as (-> & -> & -> & ->)
  end.
  repeat split.
Qed.

Lemma setTokens_persist_off_leaves_keep_witness :
  let st1 := (setTokens add_365 (tokens_T (Some true)) (app, browser 0)).2 in
  let st2 := (setTokens add_365 (tokens_T (Some false)) st1).2 in
  let reported := header_app_keep in
  parse_plain reported = written_cookies (document_cookie st2.2)
  ∧ persist st2.1 = Some false
  ∧ persist (getTokens parse_plain (Some reported) st2).2.1 = Some true.
Proof.
  intros st1 st2 reported. subst st2 st1 reported.
  lazymatch goal with
  | |- ?transport ∧ _ => assert transport as Hreported by (by vm_compute)
  end.
  split; [exact Hreported|].
  destruct (setTokens_persist_off_leaves_keep parse_plain add_365
              (tokens_T (Some true)) (tokens_T (Some false)) app (browser 0)
              header_app_keep
              eq_refl eq_refl eq_refl eq_refl eq_refl Hreported)
    as (Hmemory & _ & Hread & _).
  split; [exact Hmemory | exact Hread].
Defined.

(** ** Cookie names of different stores *)

Lemma list_ascii_of_append (s1 s2 : string) :
  String.list_ascii_of_string (s1 +:+ s2)
  = (String.list_ascii_of_string s1 ++ String.list_ascii_of_string s2)%list.
Proof. induction s1 as [|c s1 IH]; simpl; [done|]. by rewrite IH. Qed.

Lemma reversed_name (p suffix : string) :
  reverse (String.list_ascii_of_string (p +:+ suffix))
  = (reverse (String.list_ascii_of_string suffix)
     ++ reverse (String.list_ascii_of_string p))%list.
Proof. by rewrite list_ascii_of_append, reverse_app. Qed.

Lemma string_of_reversed (p q : string) :
  reverse (String.list_ascii_of_string p)
  = reverse (String.list_ascii_of_string q) →
  p = q.
Proof.
  intros Heq. apply (f_equal reverse) in Heq.
  rewrite !reverse_involutive in Heq.
  apply (f_equal String.string_of_list_ascii) in Heq.
  by rewrite !String.string_of_list_ascii_of_string in Heq.
Qed.

(** Read from its end, a cookie name shows its field and then its prefix:
    two of the names this class forms are equal only when both the prefixes
    and the fields are. *)
Lemma cookie_name_inj (p q a b : string) :
  a ∈ [":id_token"; ":access_token"; ":refresh_token"; ":keep"] →
  b ∈ [":id_token"; ":access_token"; ":refresh_token"; ":keep"] →
  p +:+ a = q +:+ b →
  p = q ∧ a = b.
Proof.
  intros Ha Hb Heq.
  apply (f_equal (λ name, reverse (String.list_ascii_of_string name))) in Heq.
  rewrite !reversed_name in Heq.
  set_unfold in Ha. set_unfold in Hb.
  destruct Ha as [-> | [-> | [-> | [-> | []]]]];
    destruct Hb as [-> | [-> | [-> | [-> | []]]]];
    vm_compute reverse in Heq at 1 3;
    cbn [app] in Heq; try discriminate Heq.
  all: split; [|reflexivity].
  all: apply string_of_reversed; by apply List.app_inv_head in Heq.
Qed.

Lemma foldl_insert_lookup_None (l : list SetCookie) (k : string)
    (jar : gmap string string) :
  jar !! k = None →
  k ∉ cookie_name <$> l →
  foldl (λ jar c, <[cookie_name c := cookie_value c]> jar) jar l !! k = None.
Proof.
  revert jar. induction l as [|c l IH]; intros jar Hjar Hnotin; [done|].
  cbn [foldl]. rewrite fmap_cons, not_elem_of_cons in Hnotin.
  destruct Hnotin as [Hne Hnotin].
  apply IH; [|done]. by rewrite lookup_insert_ne.
Qed.

(** A name that was never assigned is not in the jar. *)
Lemma written_cookies_lookup_None (l : list SetCookie) (k : string) :
  k ∉ cookie_name <$> l → written_cookies l !! k = None.
Proof. intros Hnotin. by apply foldl_insert_lookup_None. Qed.

(** No name of the store [q] is among the names [setTokens] writes for a
    store of another prefix [p]. *)
Lemma other_prefix_not_written (p q field i a r : string) o (keep : bool) :
  q ≠ p →
  field ∈ [":id_token"; ":access_token"; ":refresh_token"; ":keep"] →
  q +:+ field
  ∉ cookie_name
    <$> ([serialize (p +:+ ":id_token") i o;
          serialize (p +:+ ":access_token") a o;
          serialize (p +:+ ":refresh_token") r o] ++
         (if keep then [serialize (p +:+ ":keep") "true" o] else []))%list.
Proof.
  intros Hprefix Hfield Hin.
  assert (∃ written,
            written ∈ [":id_token"; ":access_token"; ":refresh_token";
                       ":keep"]
            ∧ q +:+ field = p +:+ written) as (written & Hwritten & Heq).
  { destruct keep; cbn in Hin; set_unfold in Hin;
      repeat destruct Hin as [Hin | Hin]; try done;
      eexists; (split; [|exact Hin]);
      repeat first [apply list_elem_of_here | apply list_elem_of_further]. }
  by destruct (cookie_name_inj q p field written Hfield Hwritten Heq).
Qed.

(** X13: stores of different prefixes do not see each other's tokens. When
    a store wrote its tokens with [setTokens] into an empty jar, a store of
    another prefix that reads a non-empty cookie string reporting that jar
    finds no token and no [keep]: its three tokens are undefined and its
    [persist] is false. *)
Theorem getTokens_other_prefix_reads_nothing parse add props s other h h'
    (reported : string) :
  window h = true →
  document_cookie h = [] →
  prefix other ≠ prefix s →
  truthy reported = true →
  parse reported
  = written_cookies (document_cookie (setTokens add props (s, h)).2.2) →
  let read := (getTokens parse (Some reported) (other, h')).2.1 in
  id_token read = None
  ∧ access_token read = None
  ∧ refresh_token read = None
  ∧ persist read = Some false.
Proof.
  intros Hwindow Hempty Hprefix Htruthy.
  rewrite setTokens_run by done. cbn [snd document_cookie].
  rewrite Hempty, app_nil_l. intros Hjar. cbv zeta.
  rewrite getTokens_run by (by rewrite Htruthy).
  cbn [fst snd id_token access_token refresh_token persist with_persist
       with_refresh_token with_id_token with_access_token].
  rewrite Hjar.
  rewrite !written_cookies_lookup_None
    by (apply other_prefix_not_written; [done|];
        repeat first [apply list_elem_of_here | apply list_elem_of_further]).
  repeat split.
Qed.

Lemma getTokens_other_prefix_reads_nothing_witness :
  let reported := header_app_keep in
  let read := (getTokens parse_plain (Some reported) (web, browser 0)).2.1 in
  id_token read = None ∧ persist read = Some false.
Proof.
  intros reported read. subst read reported.
  destruct (getTokens_other_prefix_reads_nothing parse_plain add_365
              (tokens_T (Some true)) app web (browser 1000) (browser 0)
              header_app_keep
              eq_refl eq_refl ltac:(discriminate) eq_refl
              ltac:(by vm_compute))
    as (Hid & _ & _ & Hpersist).
  split; [exact Hid | exact Hpersist].
Defined.

(** ** [clearTokens] after [setTokens] *)

(** X14: [clearTokens] after [setTokens] expires every cookie [setTokens]
    wrote: each name written by [setTokens] (three, or four with [persist])
    is written again by [clearTokens] with an empty value; the tokens and
    [persist] given to [setTokens] are still on the instance afterwards. *)
Theorem clearTokens_covers_setTokens add props s h :
  window h = true →
  let st1 := (setTokens add props (s, h)).2 in
  let st2 := (clearTokens st1).2 in
  let set_cookies :=
    drop (length (document_cookie h)) (document_cookie st1.2) in
  let cleared :=
    drop (length (document_cookie st1.2)) (document_cookie st2.2) in
  (∀ name, name ∈ cookie_name <$> set_cookies →
           name ∈ cookie_name <$> cleared)
  ∧ Forall (λ c, cookie_value c = "") cleared
  ∧ id_token st2.1 = Some (SetTokenProps.id_token props)
  ∧ access_token st2.1 = Some (SetTokenProps.access_token props)
  ∧ refresh_token st2.1 = Some (SetTokenProps.refresh_token props)
  ∧ persist st2.1 = Some (Boolean (SetTokenProps.persist props)).
Proof.
  intros Hwindow st1 st2 set_cookies cleared.
  subst cleared set_cookies st2 st1.
  rewrite setTokens_run by done. cbn [snd].
  rewrite clearTokens_run by done.
  cbn [fst snd document_cookie prefix with_persist with_refresh_token
       with_id_token with_access_token].
  rewrite !drop_app_length.
  split; [|split; [repeat constructor | repeat split]].
  intros name Hname.
  destruct (truthy (SetTokenProps.persist props));
    cbn in Hname |- *; set_unfold in Hname; set_unfold; tauto.
Qed.

Lemma clearTokens_covers_setTokens_witness :
  let st1 := (setTokens add_365 (tokens_T None) (app, browser 0)).2 in
  let st2 := (clearTokens st1).2 in
  "app:id_token" ∈ cookie_name <$> drop 3 (document_cookie st2.2)
  ∧ id_token st2.1 = Some "T".
Proof.
  intros st1 st2. subst st2 st1.
  destruct (clearTokens_covers_setTokens add_365 (tokens_T None) app
              (browser 0) eq_refl) as (Hcovered & _ & Hid & _).
  split; [|exact Hid].
  apply Hcovered. apply list_elem_of_here.
Defined.

(** What [clearTokens] keeps in either context: the instance and the
    clock. *)
Lemma clearTokens_instance_and_clock s h :
  (clearTokens (s, h)).2.1 = s ∧ now (clearTokens (s, h)).2.2 = now h.
Proof.
  destruct (window h) eqn:Hwindow.
  - by rewrite clearTokens_run.
  - unfold clearTokens. run_window_test Hwindow true. done.
Qed.

(** X15: clearing the cookies does not change what [isExpired] answers:
    in either context, [isExpired] right after [clearTokens] returns what it
    returns without it, since it reads the token kept in memory. *)
Theorem isExpired_ignores_clearTokens jwt s h :
  (isExpired jwt (clearTokens (s, h)).2).1 = (isExpired jwt (s, h)).1.
Proof.
  destruct (clearTokens_instance_and_clock s h) as [Hinstance Hclock].
  destruct (clearTokens (s, h)).2 as [s' h']. cbn [fst snd] in *. subst s'.
  rewrite !isExpired_run. cbn [fst]. by rewrite Hclock.
Qed.

(** ** [decode] and [isExpired] over time and in sequence *)

(** X16: an expired token stays expired. If [isExpired] returns true at one
    clock reading, it returns true at every later one, for the same token
    and decoder. *)
Theorem isExpired_stays_expired jwt s h h' :
  (isExpired jwt (s, h)).1 = Return true →
  now h ≤ now h' →
  (isExpired jwt (s, h')).1 = Return true.
Proof.
  rewrite !isExpired_run. cbn [fst].
  destruct (exp (default empty_payload (jwt (id_token s)))) as [e|]; [|done].
  destruct (e =? 0); [done|].
  intros Hexpired Hlater. f_equal.
  assert (isAfter (ValidDate (now h)) (Date_of_value (Some (e * 1000)))
          = true) as Hafter by congruence.
  unfold isAfter, Date_of_value in *.
  case_bool_decide; [|done]. cbn [getTime] in *.
  apply bool_decide_eq_true in Hafter. apply bool_decide_eq_true. lia.
Qed.

Lemma isExpired_stays_expired_witness :
  (isExpired (jwt_T 1000) (app_T, browser 1000001)).1 = Return true
  ∧ (isExpired (jwt_T 1000) (app_T, browser 2000000)).1 = Return true.
Proof.
  split; [reflexivity|].
  apply (isExpired_stays_expired (jwt_T 1000) app_T (browser 1000001)
           (browser 2000000)); [reflexivity|].
  cbn [now browser]. lia.
Defined.

(** X17: [decode] depends on [id_token] alone and is idempotent: a second
    [decode] leaves the instance as the first one left it, whatever [user]
    held before the first. *)
Theorem decode_idempotent jwt s h previous :
  decode jwt (decode jwt (with_user previous s, h)).2
  = decode jwt (s, h).
Proof.
  rewrite (decode_run jwt (with_user previous s)). cbn [snd].
  rewrite !decode_run. reflexivity.
Qed.

(** X18: [decode] right after [setTokens] yields the claims of the token
    just set, not of the token held before: [user] is the decoded payload of
    the new [id_token], or the empty mapping when the decoder rejects it. *)
Theorem setTokens_then_decode add jwt props s h :
  window h = true →
  user (decode jwt (setTokens add props (s, h)).2).2.1
  = Some (default empty_payload
            (jwt (Some (SetTokenProps.id_token props)))).
Proof.
  intros Hwindow. rewrite setTokens_run by done. cbn [snd].
  rewrite decode_run. reflexivity.
Qed.

Lemma setTokens_then_decode_witness :
  let s := with_user (Some (payload_of_exp 5)) app in
  user (decode (jwt_T 1000)
          (setTokens add_365 (tokens_T None) (s, browser 0)).2).2.1
  = Some (payload_of_exp 1000).
Proof.
  intros s.
  exact (setTokens_then_decode add_365 (jwt_T 1000) (tokens_T None) s
           (browser 0) eq_refl).
Defined.

(** X19: the chain [getTokens(cookie_string).decode().user] on a non-empty
    cookie string gives the decoded payload of the cookie [prefix:id_token]
    of that string, and the empty mapping when the cookie is missing or the
    decoder rejects its value; what the instance held before plays no
    part. *)
Theorem getTokens_then_decode parse jwt (argument : string) s h :
  truthy argument = true →
  user (decode jwt (getTokens parse (Some argument) (s, h)).2).2.1
  = Some (default empty_payload
            (jwt (parse argument !! (prefix s +:+ ":id_token")))).
Proof.
  intros Htruthy. rewrite getTokens_run by (by rewrite Htruthy).
  cbn [snd]. rewrite decode_run. reflexivity.
Qed.

Lemma getTokens_then_decode_witness :
  user (decode (jwt_T 1000)
          (getTokens parse_plain (Some "app:id_token=T") (app, server 0)).2).2.1
  = Some (payload_of_exp 1000)
  ∧ user (decode (jwt_T 1000)
            (getTokens parse_plain (Some "theme=dark") (app_T, server 0)).2).2.1
    = Some empty_payload.
Proof.
  split.
  - exact (getTokens_then_decode parse_plain (jwt_T 1000) "app:id_token=T"
             app (server 0) eq_refl).
  - exact (getTokens_then_decode parse_plain (jwt_T 1000) "theme=dark"
             app_T (server 0) eq_refl).
Defined.

(** What the constructor leaves when it is given a non-empty string. *)
Lemma constructor_run parse p (given : string) host :
  truthy given = true →
  new_AuthCookieStorage parse (AuthCookieStorageProps.mk p (Some given)) host
  = (Return tt,
     (with_persist (Some (Boolean (parse given !! (p +:+ ":keep"))))
        (with_refresh_token (parse given !! (p +:+ ":refresh_token"))
           (with_id_token (parse given !! (p +:+ ":id_token"))
              (with_access_token (parse given !! (p +:+ ":access_token"))
                 (with_cookie_string (Some given) (with_prefix p blank))))),
      host)).
Proof.
  intros Htruthy. unfold new_AuthCookieStorage, constructor. run_step.
  cbn [AuthCookieStorageProps.cookie_string AuthCookieStorageProps.prefix].
  change (truthy (Some given)) with (truthy given). rewrite Htruthy.
  cbn [negb]. run_step.
  erewrite run_bind by (apply getTokens_run; by rewrite Htruthy).
  reflexivity.
Qed.

(** X20: a new instance picks up what another one wrote. When [setTokens]
    wrote into an empty jar, constructing an instance of the same prefix on
    a non-empty cookie string reporting that jar, in any host (a server
    included), gives an instance with the same three tokens and the boolean
    of the same [persist] flag. *)
Theorem constructor_recovers_setTokens parse add props s h host
    (reported : string) :
  window h = true →
  document_cookie h = [] →
  truthy reported = true →
  parse reported
  = written_cookies (document_cookie (setTokens add props (s, h)).2.2) →
  let created :=
    (new_AuthCookieStorage parse
       (AuthCookieStorageProps.mk (prefix s) (Some reported)) host).2.1 in
  id_token created = Some (SetTokenProps.id_token props)
  ∧ access_token created = Some (SetTokenProps.access_token props)
  ∧ refresh_token created = Some (SetTokenProps.refresh_token props)
  ∧ persist created = Some (Boolean (SetTokenProps.persist props))
  ∧ cookie_string created = Some reported.
Proof.
  intros Hwindow Hempty Htruthy.
  rewrite setTokens_run by done. cbn [snd document_cookie].
  rewrite Hempty, app_nil_l. intros Hjar. cbv zeta.
  rewrite constructor_run by done.
  cbn [fst snd id_token access_token refresh_token persist cookie_string
       with_persist with_refresh_token with_id_token with_access_token
       with_cookie_string].
  rewrite Hjar.
  match goal with
  | |- context [written_cookies ([serialize _ ?i ?o; serialize _ ?a _;
                                  serialize _ ?r _] ++
                                 (if ?keep then _ else _))] =>
      destruct (written_cookies_setTokens (prefix s) i a r o keep)
        as (-> & -> & -> & ->)
  end.
  repeat split. unfold Boolean.
  by destruct (truthy (SetTokenProps.persist props)).
Qed.

Lemma constructor_recovers_setTokens_witness :
  let reported := "app:id_token=T; app:access_token=a; app:refresh_token=r" in
  let created :=
    (new_AuthCookieStorage parse_plain
       (AuthCookieStorageProps.mk "app" (Some reported)) (server 0)).2.1 in
  id_token created = Some "T" ∧ persist created = Some false.
Proof.
  intros reported created. subst created reported.
  destruct (constructor_recovers_setTokens parse_plain add_365
              (tokens_T None) app (browser 0) (server 0)
              "app:id_token=T; app:access_token=a; app:refresh_token=r"
              eq_refl eq_refl eq_refl ltac:(by vm_compute))
    as (Hid & _ & _ & Hpersist & _).
  split; [exact Hid | exact Hpersist].
Defined.
